(** * zerver/management/commands/create_user.py

    A shallow embedding of the [create_user] management command
    ([Command.handle]) and the properties of its argument resolution,
    password resolution and delegate call.

    The command talks to the outside through a handful of collaborators
    (the realm resolver, the email validator, the file system, the
    initial-password helper and [do_create_user]); they are the fields of
    the class [Installation].  What the command does to the outside is kept in
    a chronological list of events, next to the lines still pending on
    standard input. *)

From Stdlib Require Import List String Ascii NArith ZArith Bool.
Import ListNotations.

Set Implicit Arguments.

(** ** Python strings *)

(** A Python [str] is a sequence of Unicode code points. *)
Definition codepoint := N.
Definition str := list codepoint.

(** The text of a literal of the source; every character of the literals of
    this command is ASCII. *)
Definition lit (s : string) : str := map N_of_ascii (list_ascii_of_string s).

(** The line feed, written [\n] in the source. *)
Definition LF : codepoint := 10%N.

(** [ch.isspace()], the test [str.strip()] applies when it is called with no
    argument: CPython's table of white space (bidirectional type WS, B or S,
    or category Zs). *)
Definition isspace (c : codepoint) : bool :=
  ((9 <=? c) && (c <=? 13)
   || (28 <=? c) && (c <=? 32)
   || (c =? 133) || (c =? 160) || (c =? 5760)
   || (8192 <=? c) && (c <=? 8202)
   || (c =? 8232) || (c =? 8233) || (c =? 8239) || (c =? 8287)
   || (c =? 12288))%N.

(** [s.lstrip()]: drop the leading white space. *)
Fixpoint lstrip (s : str) : str :=
  match s with
  | [] => []
  | c :: s' => if isspace c then lstrip s' else s
  end.

(** [s.rstrip()]: drop the trailing white space. *)
Definition rstrip (s : str) : str := rev (lstrip (rev s)).

(** [s.strip()]: the slice between the first and the last character that is
    not white space. *)
Definition strip (s : str) : str := rstrip (lstrip s).

(** ** Exceptions *)

(** What [open] and [read] raise on a path that cannot be opened or read. *)
Inductive io_error : Type :=
| FileNotFoundError
| PermissionError
| IsADirectoryError
| UnicodeDecodeError
| OtherOSError (msg : str).

(** The exception classes the command names or meets.  [IntegrityError]
    stands for [django.db.utils.IntegrityError] and its subclasses, which is
    what an [except IntegrityError] clause catches; [OtherException] for a
    class that is none of the others. *)
Inductive exn : Type :=
| CommandError (msg : str)
| ValidationError
| KeyError (key : str)
| IntegrityError (msg : str)
| AssertionError
| EOFError
| IOError (e : io_error)
| OtherException (cls msg : str).

Definition is_KeyError (e : exn) : bool :=
  match e with KeyError _ => true | _ => false end.

Definition is_ValidationError (e : exn) : bool :=
  match e with ValidationError => true | _ => false end.

Definition is_IntegrityError (e : exn) : bool :=
  match e with IntegrityError _ => true | _ => false end.

(** A call either returns a value or raises. *)
Inductive Result (A : Type) : Type :=
| Return (a : A)
| Raise (e : exn).
Arguments Raise {A} e.

(** ** The options of an invocation *)

(** The [options] dictionary [handle] receives.  The two positionals are
    declared with [default=argparse.SUPPRESS]: when one is not given its key
    is absent, which is [None] here.  [--password] and [--password-file]
    default to the Python value [None], which is [None] here too; their keys
    are always there. *)
Record Options : Type := mkOptions {
  tos : bool;
  password : option str;
  password_file : option str;
  email : option str;
  full_name : option str;
  realm_id : option str
}.

(** ** The literals of the command *)

Definition MSG_TOS : str :=
  lit "You must confirm that this user has accepted the" ++ [LF] ++
  lit "Terms of Service by passing --this-user-has-accepted-the-tos.".

Definition MSG_INVALID_EMAIL : str := lit "Invalid email address.".

Definition MSG_USAGE : str :=
  lit "Either specify an email and full name as two" ++ [LF] ++
  lit "parameters, or specify no parameters for interactive user creation.".

Definition MSG_UNUSABLE : str := lit "Password is unusable.".

Definition MSG_EXISTS : str := lit "User already exists.".

Definition PROMPT_EMAIL : str := lit "Email: ".

Definition PROMPT_FULL_NAME : str := lit "Full name: ".

(** ** Collaborators *)

(** What the command consumes from the application and the platform. *)
Class Installation : Type := {
  (** The application's types. *)
  Realm : Type;
  UserProfile : Type;
  (** [self.get_realm(options)]: a realm, [None], or an exception. *)
  get_realm : Options -> Result (option Realm);
  (** [validators.validate_email(email)]: [true] when it returns, [false]
      when it raises [ValidationError]. *)
  validate_email : str -> bool;
  (** [open(path)] followed by [f.read()]: the text read, or the error. *)
  read_text : str -> io_error + str;
  (** [initial_password(email)]: a password, or [None] for an unusable
      one. *)
  initial_password : str -> option str;
  (** [do_create_user(email, pw, realm, full_name, acting_user=...)]. *)
  do_create_user :
    str -> str -> Realm -> str -> option UserProfile -> Result UserProfile
}.

Declare Scope cmd_scope.
Delimit Scope cmd_scope with cmd.

Section Command.

Context {I : Installation}.

(** *** Effects *)

(** What the command does to the outside, one event per call. *)
Inductive Event : Type :=
| EvGetRealm
| EvValidateEmail (address : str)
| EvInput (prompt : str)
| EvStderr (line : str)
| EvOpen (path : str)
| EvInitialPassword (address : str)
| EvCreateUser (address pw : str) (realm : Realm) (name : str)
               (acting_user : option UserProfile).

(** The outside: the lines standard input still holds (end of file after
    the last one) and the events so far, oldest first. *)
Record World : Type := mkWorld {
  stdin : list str;
  trace : list Event
}.

Definition init (lines : list str) : World := mkWorld lines [].

Definition log (ev : Event) (w : World) : World :=
  mkWorld (stdin w) (trace w ++ [ev]).

(** Computations that read and change the outside and may raise. *)
Definition M (A : Type) : Type := World -> Result A * World.

Definition ret {A} (a : A) : M A := fun w => (Return a, w).

Definition raise {A} (e : exn) : M A := fun w => (Raise e, w).

Definition bind {A B} (m : M A) (k : A -> M B) : M B :=
  fun w =>
    match m w with
    | (Return a, w') => k a w'
    | (Raise e, w') => (Raise e, w')
    end.

(** [try: body / except <class>: handler]: an exception of the class runs
    the handler, any other goes on unchanged. *)
Definition try_except {A} (body : M A) (caught : exn -> bool)
           (handler : M A) : M A :=
  fun w =>
    match body w with
    | (Return a, w') => (Return a, w')
    | (Raise e, w') => if caught e then handler w' else (Raise e, w')
    end.

Definition emit (ev : Event) : M unit := fun w => (Return tt, log ev w).

(** A call of a collaborator: the event, then its result. *)
Definition call {A} (ev : Event) (r : Result A) : M A :=
  fun w => (r, log ev w).

Notation "x <- m ;; k" := (bind m (fun x => k))
  (at level 100, m at next level, right associativity) : cmd_scope.
Notation "m ;;; k" := (bind m (fun _ => k))
  (at level 100, right associativity) : cmd_scope.
Local Open Scope cmd_scope.

(** [options[key]] for a positional: [KeyError] when the key is absent. *)
Definition getitem (key : str) (v : option str) : M str :=
  match v with
  | Some s => ret s
  | None => raise (KeyError key)
  end.

(** [key in options]. *)
Definition contains (v : option str) : bool :=
  match v with Some _ => true | None => false end.

(** [validators.validate_email(address)]. *)
Definition do_validate_email (address : str) : M unit :=
  call (EvValidateEmail address)
       (if validate_email address then Return tt else Raise ValidationError).

(** [input(prompt)]: the prompt goes out, the next line comes in;
    [EOFError] at the end of standard input. *)
Definition input (prompt : str) : M str :=
  fun w =>
    match stdin w with
    | [] => (Raise EOFError, log (EvInput prompt) w)
    | line :: rest => (Return line, mkWorld rest (trace w ++ [EvInput prompt]))
    end.

(** [print(line, file=sys.stderr)]. *)
Definition print_stderr (line : str) : M unit := emit (EvStderr line).

(** Lines 63-68, one turn of the [while True] loop: [Some address] when
    the turn ends in [break], [None] when the loop goes round again. *)
Definition email_turn : M (option str) :=
  address <- input PROMPT_EMAIL ;;
  try_except
    (do_validate_email address ;;; ret (Some address))
    is_ValidationError
    (print_stderr MSG_INVALID_EMAIL ;;; ret None).

(** Lines 62-68, the loop.  A turn either takes a line of standard input
    or ends the command with [EOFError], so the loop is written as a
    recursion on the pending lines; [email_loop_turn] below shows that it
    is the iteration of [email_turn]. *)
Fixpoint email_loop_from (pending : list str) (tr : list Event)
  : Result str * World :=
  match pending with
  | [] => (Raise EOFError, mkWorld [] (tr ++ [EvInput PROMPT_EMAIL]))
  | address :: rest =>
      let tr1 := (tr ++ [EvInput PROMPT_EMAIL]) ++ [EvValidateEmail address] in
      if validate_email address
      then (Return address, mkWorld rest tr1)
      else email_loop_from rest (tr1 ++ [EvStderr MSG_INVALID_EMAIL])
  end.

Definition email_loop : M str :=
  fun w => email_loop_from (stdin w) (trace w).

(** Lines 50-69: the email and the full name, from the positionals or
    from the prompts. *)
Definition resolve_identity (options : Options) : M (str * str) :=
  try_except
    (address <- getitem (lit "email") (email options) ;;
     name <- getitem (lit "full_name") (full_name options) ;;
     try_except
       (do_validate_email address)
       is_ValidationError
       (raise (CommandError MSG_INVALID_EMAIL)) ;;;
     ret (address, name))
    is_KeyError
    (if contains (email options) || contains (full_name options)
     then raise (CommandError MSG_USAGE)
     else
       address <- email_loop ;;
       name <- input PROMPT_FULL_NAME ;;
       ret (address, name)).

(** [with open(path) as f: f.read()]. *)
Definition open_read (path : str) : M str :=
  call (EvOpen path)
       (match read_text path with
        | inl e => Raise (IOError e)
        | inr text => Return text
        end).

(** Lines 72-81: the password, from the file, from [--password], or from
    [initial_password]. *)
Definition resolve_password (options : Options) (address : str) : M str :=
  match password_file options with
  | Some path =>
      text <- open_read path ;;
      ret (strip text)
  | None =>
      match password options with
      | Some p => ret p
      | None =>
          user_initial_password <-
            call (EvInitialPassword address)
                 (Return (initial_password address)) ;;
          match user_initial_password with
          | None => raise (CommandError MSG_UNUSABLE)
          | Some p => ret p
          end
      end
  end.

(** Lines 82-88: the call of [do_create_user], whose value is dropped. *)
Definition create_user (address pw : str) (realm : Realm) (name : str)
  : M unit :=
  call (EvCreateUser address pw realm name None)
       (do_create_user address pw realm name None) ;;;
  ret tt.

(** Lines 71-90: the [try] block and its [except IntegrityError]. *)
Definition create_block (options : Options) (address : str)
           (realm : Realm) (name : str) : M unit :=
  try_except
    (pw <- resolve_password options address ;;
     create_user address pw realm name)
    is_IntegrityError
    (raise (CommandError MSG_EXISTS)).

(** Lines 47-48: the realm and the assertion on it. *)
Definition resolve_realm (options : Options) : M Realm :=
  realm <- call EvGetRealm (get_realm options) ;;
  match realm with
  | Some r => ret r
  | None => raise AssertionError
  end.

(** [Command.handle]. *)
Definition handle (options : Options) : M unit :=
  (if negb (tos options) then raise (CommandError MSG_TOS) else ret tt) ;;;
  realm <- resolve_realm options ;;
  ident <- resolve_identity options ;;
  create_block options (fst ident) realm (snd ident).

(** The command run on a fresh outside with the given standard input. *)
Definition run (options : Options) (lines : list str) : Result unit * World :=
  handle options (init lines).

(** Whether an event is a call of [do_create_user]. *)
Definition is_create (ev : Event) : bool :=
  match ev with EvCreateUser _ _ _ _ _ => true | _ => false end.

(** How many times [do_create_user] was called. *)
Definition creations (w : World) : nat :=
  List.length (filter is_create (trace w)).

(** The run gets to line 71 with this email, realm and full name, the
    outside being [w] by then. *)
Definition reaches_try_block (options : Options) (lines : list str)
           (address : str) (realm : Realm) (name : str) (w : World) : Prop :=
  tos options = true /\
  get_realm options = Return (Some realm) /\
  resolve_identity options (log EvGetRealm (init lines))
    = (Return (address, name), w).

(** The events of one turn of the loop on a line the validator refuses. *)
Definition refused_turn (line : str) : list Event :=
  [EvInput PROMPT_EMAIL; EvValidateEmail line; EvStderr MSG_INVALID_EMAIL].

End Command.

(** Exactly one of the two positionals is given. *)
Definition exactly_one_positional (options : Options) : bool :=
  xorb (contains (email options)) (contains (full_name options)).

(** [options] with another value for [--password]. *)
Definition with_password (options : Options) (p : option str) : Options :=
  mkOptions (tos options) p (password_file options) (email options)
            (full_name options) (realm_id options).

(** The first and the last character of a string, when it has any. *)
Definition first_char (s : str) : option codepoint := hd_error s.
Definition last_char (s : str) : option codepoint := hd_error (rev s).

(** Modelled from the spec: the framework's command runner, which turns the
    way [handle] ends into the exit status of the process, is not part of
    the command's file.  Zero on success; any failure ends the invocation
    with a non-zero status. *)
Definition exit_status {A} (r : Result A) : Z :=
  match r with
  | Return _ => 0%Z
  | Raise _ => 1%Z
  end.

(** The user-facing message of a command that ended in [CommandError]. *)
Definition reported_error {A} (r : Result A) : option str :=
  match r with
  | Raise (CommandError msg) => Some msg
  | _ => None
  end.

(** ** Observations on a run *)

Section Observations.

Context {I : Installation}.

(** Whether an event is an attempt to open the password file. *)
Definition is_open (ev : Event) : bool :=
  match ev with EvOpen _ => true | _ => false end.

(** Whether an event is a call of [initial_password]. *)
Definition is_initial_password (ev : Event) : bool :=
  match ev with EvInitialPassword _ => true | _ => false end.

(** Whether an event is on the console: a prompt with its read of standard
    input, or a line on standard error. *)
Definition is_console (ev : Event) : bool :=
  match ev with EvInput _ | EvStderr _ => true | _ => false end.

(** How many events of a kind the outside has seen. *)
Definition occurrences (kind : Event -> bool) (w : World) : nat :=
  List.length (filter kind (trace w)).

(** The latest event. *)
Definition last_event (w : World) : option Event := hd_error (rev (trace w)).


End Observations.

(** A string that neither starts nor ends with white space. *)
Definition trimmed (s : str) : bool :=
  match first_char s, last_char s with
  | Some a, Some b => negb (isspace a) && negb (isspace b)
  | _, _ => true
  end.

(** ** A sample installation, for running the command *)

Module Sample.

Definition at_sign : codepoint := 64%N.

Definition str_eqb (a b : str) : bool :=
  if list_eq_dec N.eq_dec a b then true else false.

(** A stand-in for the validator: an address holds an [@]. *)
Definition sample_validate_email (s : str) : bool :=
  existsb (N.eqb at_sign) s.

Definition sample_get_realm (o : Options) : Result (option nat) :=
  match realm_id o with
  | Some _ => Return (Some 1)
  | None => Return None
  end.

Definition PW_PATH : str := lit "/etc/zulip/pw".

Definition PW_TEXT : str := lit "  secret123  " ++ [LF].

Definition sample_read_text (path : str) : io_error + str :=
  if str_eqb path PW_PATH then inr PW_TEXT else inl FileNotFoundError.

Definition sample_initial_password (address : str) : option str :=
  if str_eqb address (lit "nopw@example.com")
  then None
  else Some (lit "initial-" ++ address).

Definition sample_do_create_user (address pw : str) (realm : nat)
           (name : str) (acting_user : option unit) : Result unit :=
  if str_eqb address (lit "taken@example.com")
  then Raise (IntegrityError (lit "duplicate key"))
  else Return tt.

Definition installation : Installation :=
  Build_Installation sample_get_realm sample_validate_email
                     sample_read_text sample_initial_password
                     sample_do_create_user.

Definition IAGO : str := lit "iago@example.com".

(** [create_user --this-user-has-accepted-the-tos -r zulip <email> <name>]
    with the given password options. *)
Definition invocation (accepted : bool) (pw file address name : option str)
  : Options :=
  mkOptions accepted pw file address name (Some (lit "zulip")).

#[local] Existing Instance installation.

Definition sample_run : Options -> list str -> Result unit * World := run.

Definition IAGO_NAME : str := lit "Iago".

(** Both positionals, no password option. *)
Definition plain : Options :=
  invocation true None None (Some IAGO) (Some IAGO_NAME).

(** Both positionals and both password options. *)
Definition both_passwords : Options :=
  invocation true (Some (lit "hunter2")) (Some PW_PATH) (Some IAGO)
             (Some IAGO_NAME).

(** A password file that is not there. *)
Definition missing_file : Options :=
  invocation true (Some (lit "hunter2")) (Some (lit "/nonexistent"))
             (Some IAGO) (Some IAGO_NAME).

(** An email without initial password. *)
Definition unusable : Options :=
  invocation true None None (Some (lit "nopw@example.com"))
             (Some IAGO_NAME).

(** An email that is taken. *)
Definition taken : Options :=
  invocation true (Some (lit "hunter2")) None
             (Some (lit "taken@example.com")) (Some IAGO_NAME).

(** The ToS flag left out, with every other argument given. *)
Definition no_tos : Options :=
  invocation false (Some (lit "hunter2")) (Some PW_PATH) (Some IAGO)
             (Some IAGO_NAME).

(** An email and no full name, with and without the ToS flag. *)
Definition email_only (accepted : bool) : Options :=
  invocation accepted None None (Some IAGO) None.

(** An email the validator refuses, with and without the ToS flag. *)
Definition bad_email (accepted : bool) : Options :=
  invocation accepted None None (Some (lit "iago.example.com"))
             (Some IAGO_NAME).

(** No positional, with and without the ToS flag. *)
Definition interactive (accepted : bool) : Options :=
  invocation accepted None None None None.

(** Two lines the validator refuses, an email, a full name, one more
    line. *)
Definition REFUSED : list str := [lit "iago"; lit "example.com"].
Definition TYPED : list str :=
  REFUSED ++ [IAGO; IAGO_NAME; lit "left over"].

(** The outside when a run with both positionals gets to the [try]
    block. *)
Definition at_try_block (address : str) : World :=
  log (EvValidateEmail address) (log EvGetRealm (init [])).

(** The outside at the [try] block, on any installation. *)
Definition at_try_block_of (I : Installation) (address : str) : World :=
  log (EvValidateEmail address) (log EvGetRealm (init [])).

(** The ToS flag set and no realm given. *)
Definition no_realm : Options :=
  mkOptions true None None (Some IAGO) (Some IAGO_NAME) None.

(** An installation whose every password file holds a blank and a
    newline. *)
Definition BLANK_TEXT : str := lit " " ++ [LF].

Definition blank_installation : Installation :=
  Build_Installation sample_get_realm sample_validate_email
                     (fun _ => inr BLANK_TEXT) sample_initial_password
                     sample_do_create_user.

End Sample.

(** ** White space *)

(** [lstrip] removes a prefix of white space. *)
Lemma lstrip_split (s : str) :
  exists l, s = l ++ lstrip s /\ forallb isspace l = true.
Proof.
  induction s as [|c s (l & Heq & Hl)]; simpl.
  - exists []. split; reflexivity.
  - destruct (isspace c) eqn:Hc.
    + exists (c :: l). simpl. rewrite Hc, Hl, <- Heq. split; reflexivity.
    + exists []. split; reflexivity.
Qed.

(** What [lstrip] leaves does not start with white space. *)
Lemma lstrip_first (s : str) (c : codepoint) :
  first_char (lstrip s) = Some c -> isspace c = false.
Proof.
  unfold first_char. induction s as [|d s IH]; simpl; [discriminate|].
  destruct (isspace d) eqn:Hd; [exact IH|].
  simpl. intros H. inversion H; subst. exact Hd.
Qed.

(** [rstrip] removes a suffix of white space. *)
Lemma rstrip_split (s : str) :
  exists r, s = rstrip s ++ r /\ forallb isspace r = true.
Proof.
  destruct (lstrip_split (rev s)) as (l & Heq & Hl).
  exists (rev l). split.
  - unfold rstrip. rewrite <- rev_app_distr, <- Heq, rev_involutive.
    reflexivity.
  - rewrite forallb_forall in *. intros x Hx. apply Hl, in_rev, Hx.
Qed.

Lemma rstrip_last (s : str) (c : codepoint) :
  last_char (rstrip s) = Some c -> isspace c = false.
Proof.
  unfold last_char, rstrip. rewrite rev_involutive. apply lstrip_first.
Qed.

(** [rstrip] keeps the first character, when it keeps any. *)
Lemma rstrip_first (s : str) (c : codepoint) :
  first_char (rstrip s) = Some c -> first_char s = Some c.
Proof.
  destruct (rstrip_split s) as (r & Heq & _).
  unfold first_char. intros H. rewrite Heq.
  destruct (rstrip s); [discriminate|exact H].
Qed.

(** [strip] removes white space at both ends and leaves none there. *)
Lemma strip_spec (s : str) :
  (exists l r, s = l ++ strip s ++ r /\
               forallb isspace l = true /\ forallb isspace r = true) /\
  (forall c, first_char (strip s) = Some c -> isspace c = false) /\
  (forall c, last_char (strip s) = Some c -> isspace c = false).
Proof.
  unfold strip. split; [|split].
  - destruct (lstrip_split s) as (l & Hl & Hsl).
    destruct (rstrip_split (lstrip s)) as (r & Hr & Hsr).
    exists l, r. rewrite <- Hr, <- Hl. repeat split; assumption.
  - intros c H. apply rstrip_first in H. apply (lstrip_first _ H).
  - intros c. apply rstrip_last.
Qed.

(** ** Properties *)

Section Properties.

Context {I : Installation}.

Local Open Scope cmd_scope.

(** *** The loop and the stages *)

(** [email_loop] is the iteration of the loop body: a turn that breaks
    ends it, a turn that does not is followed by the loop again, and an
    exception leaves it. *)
Lemma email_loop_turn (w : World) :
  email_loop w =
  match email_turn w with
  | (Return (Some address), w') => (Return address, w')
  | (Return None, w') => email_loop w'
  | (Raise e, w') => (Raise e, w')
  end.
Proof.
  destruct w as [pending tr].
  unfold email_loop, email_turn, bind, try_except, input, do_validate_email,
    call, print_stderr, emit, ret, log; simpl.
  destruct pending as [|line rest]; simpl; [reflexivity|].
  destruct (validate_email line); reflexivity.
Qed.

Lemma filter_create_log (ev : Event) (w : World) :
  filter is_create (trace (log ev w)) =
  filter is_create (trace w) ++ (if is_create ev then [ev] else []).
Proof.
  unfold log; simpl. rewrite filter_app. simpl.
  destruct (is_create ev); reflexivity.
Qed.

Lemma creations_log (ev : Event) (w : World) :
  is_create ev = false -> creations (log ev w) = creations w.
Proof.
  intros H. unfold creations. rewrite filter_create_log, H, app_nil_r.
  reflexivity.
Qed.

Lemma email_loop_from_no_create (pending : list str) :
  forall tr,
    filter is_create (trace (snd (email_loop_from pending tr))) =
    filter is_create tr.
Proof.
  induction pending as [|line rest IH]; intros tr; simpl.
  - rewrite filter_app. simpl. apply app_nil_r.
  - destruct (validate_email line); simpl.
    + rewrite !filter_app. simpl. rewrite !app_nil_r. reflexivity.
    + rewrite IH, !filter_app. simpl. rewrite !app_nil_r. reflexivity.
Qed.

(** Resolving the email and the full name never calls [do_create_user]. *)
Lemma resolve_identity_no_create (options : Options) (w : World) :
  creations (snd (resolve_identity options w)) = creations w.
Proof.
  unfold creations. f_equal.
  unfold resolve_identity, try_except, bind, getitem, ret, raise,
    do_validate_email, call, input, email_loop.
  destruct (email options) as [address|], (full_name options) as [name|];
    simpl; try reflexivity.
  - destruct (validate_email address); simpl;
      rewrite filter_app; simpl; apply app_nil_r.
  - pose proof (email_loop_from_no_create (stdin w) (trace w)) as H.
    destruct (email_loop_from (stdin w) (trace w)) as [[address|e] w1];
      simpl in *; [|exact H].
    destruct (stdin w1) as [|line rest]; simpl;
      rewrite filter_app; simpl; rewrite app_nil_r; exact H.
Qed.

(** Nor does resolving the password. *)
Lemma resolve_password_no_create (options : Options) (address : str)
      (w : World) :
  creations (snd (resolve_password options address w)) = creations w.
Proof.
  unfold resolve_password, open_read, bind, call, ret, raise.
  destruct (password_file options) as [path|]; simpl.
  - destruct (read_text path); simpl; apply creations_log; reflexivity.
  - destruct (password options) as [p|]; simpl; [reflexivity|].
    destruct (initial_password address); simpl;
      apply creations_log; reflexivity.
Qed.

(** Password resolution raises a file-system error or the unusable
    password error, nothing else. *)
Lemma resolve_password_raises (options : Options) (address : str)
      (w w' : World) (e : exn) :
  resolve_password options address w = (Raise e, w') ->
  (exists err, e = IOError err) \/ e = CommandError MSG_UNUSABLE.
Proof.
  unfold resolve_password, open_read, bind, call, ret, raise.
  destruct (password_file options) as [path|]; simpl.
  - destruct (read_text path) as [err|text]; simpl; intros H;
      inversion H; subst. left. exists err. reflexivity.
  - destruct (password options) as [p|]; simpl; [discriminate|].
    destruct (initial_password address); simpl; intros H;
      inversion H; subst. right. reflexivity.
Qed.

(** The [try] block, by cases on the password and on [do_create_user]. *)
Lemma create_block_cases (options : Options) (address : str)
      (realm : Realm) (name : str) (w : World) :
  create_block options address realm name w =
  match resolve_password options address w with
  | (Raise e, w') => (Raise e, w')
  | (Return pw, w') =>
      (match do_create_user address pw realm name None with
       | Return _ => Return tt
       | Raise e =>
           if is_IntegrityError e then Raise (CommandError MSG_EXISTS)
           else Raise e
       end,
       log (EvCreateUser address pw realm name None) w')
  end.
Proof.
  unfold create_block, try_except, bind at 1.
  destruct (resolve_password options address w) as [[pw|e] w'] eqn:Hpw.
  - unfold create_user, bind, call, ret, raise.
    destruct (do_create_user address pw realm name None) as [u|e];
      [reflexivity|].
    destruct (is_IntegrityError e); reflexivity.
  - apply resolve_password_raises in Hpw.
    destruct Hpw as [[err ->]| ->]; reflexivity.
Qed.

(** A run that gets to the [try] block ends as the block does. *)
Lemma run_reaches (options : Options) (lines : list str) (address : str)
      (realm : Realm) (name : str) (w : World) :
  reaches_try_block options lines address realm name w ->
  run options lines = create_block options address realm name w.
Proof.
  intros (Htos & Hrealm & Hid).
  unfold run, handle, resolve_realm, bind, call, ret, raise.
  rewrite Htos, Hrealm. simpl. rewrite Hid. reflexivity.
Qed.

Lemma reaches_no_create (options : Options) (lines : list str)
      (address : str) (realm : Realm) (name : str) (w : World) :
  reaches_try_block options lines address realm name w ->
  creations w = 0.
Proof.
  intros (_ & _ & Hid).
  pose proof (resolve_identity_no_create options
                (log EvGetRealm (init lines))) as H.
  rewrite Hid in H. simpl in H. rewrite H. reflexivity.
Qed.

(** A run either fails before the [try] block, [do_create_user] not
    called, or gets to it. *)
Lemma run_cases (options : Options) (lines : list str) :
  (exists e w, run options lines = (Raise e, w) /\ creations w = 0) \/
  (exists address realm name w,
      reaches_try_block options lines address realm name w).
Proof.
  destruct (tos options) eqn:Htos.
  2:{ left. exists (CommandError MSG_TOS), (init lines).
      unfold run, handle, bind, raise. rewrite Htos. split; reflexivity. }
  destruct (get_realm options) as [[realm|]|e] eqn:Hrealm.
  - destruct (resolve_identity options (log EvGetRealm (init lines)))
      as [[[address name]|e] w] eqn:Hid.
    + right. exists address, realm, name, w. repeat split; assumption.
    + left. exists e, w. split.
      * unfold run, handle, resolve_realm, bind, call, ret, raise.
        rewrite Htos, Hrealm. simpl. rewrite Hid. reflexivity.
      * pose proof (resolve_identity_no_create options
                      (log EvGetRealm (init lines))) as H.
        rewrite Hid in H. simpl in H. rewrite H. reflexivity.
  - left. exists AssertionError, (log EvGetRealm (init lines)). split.
    + unfold run, handle, resolve_realm, bind, call, ret, raise.
      rewrite Htos, Hrealm. reflexivity.
    + reflexivity.
  - left. exists e, (log EvGetRealm (init lines)). split.
    + unfold run, handle, resolve_realm, bind, call, ret, raise.
      rewrite Htos, Hrealm. reflexivity.
    + reflexivity.
Qed.

(** *** The ToS check and the positionals *)

(** C2.  Without the ToS flag the command ends at once in the
    [CommandError] of line 45, for every other argument and whatever
    standard input holds: the outside is left as it was, so the realm is
    not resolved, nothing is validated, prompted or read, and
    [do_create_user] is not called; the exit status is not zero. *)
Theorem tos_required (options : Options) (w : World) (lines : list str) :
  tos options = false ->
  handle options w = (Raise (CommandError MSG_TOS), w) /\
  run options lines = (Raise (CommandError MSG_TOS), init lines) /\
  trace (snd (run options lines)) = [] /\
  stdin (snd (run options lines)) = lines /\
  creations (snd (run options lines)) = 0 /\
  exit_status (fst (run options lines)) <> 0%Z.
Proof.
  intros Htos.
  assert (H : forall w0, handle options w0 = (Raise (CommandError MSG_TOS), w0)).
  { intros w0. unfold handle, bind, raise. rewrite Htos. reflexivity. }
  unfold run. rewrite !H. simpl.
  repeat split; try reflexivity. discriminate.
Qed.

Lemma resolve_identity_one_positional (options : Options) (w : World) :
  exactly_one_positional options = true ->
  resolve_identity options w = (Raise (CommandError MSG_USAGE), w).
Proof.
  unfold exactly_one_positional, resolve_identity, try_except, bind,
    getitem, ret, raise.
  destruct (email options), (full_name options); simpl;
    (discriminate || reflexivity).
Qed.

Lemma resolve_identity_invalid (options : Options) (w : World)
      (address name : str) :
  email options = Some address ->
  full_name options = Some name ->
  validate_email address = false ->
  resolve_identity options w =
  (Raise (CommandError MSG_INVALID_EMAIL), log (EvValidateEmail address) w).
Proof.
  intros He Hn Hv.
  unfold resolve_identity, try_except, bind, getitem, ret, raise,
    do_validate_email, call.
  rewrite He, Hn, Hv. reflexivity.
Qed.

(** Once the identity stage raises, the run fails without a call of
    [do_create_user]. *)
Lemma run_fails_at_identity (options : Options) (lines : list str) :
  (forall w, exists e w', resolve_identity options w = (Raise e, w')) ->
  exists e w, run options lines = (Raise e, w) /\ creations w = 0.
Proof.
  intros Hid.
  destruct (run_cases options lines)
    as [H|(address & realm & name & w & _ & _ & H)]; [exact H|].
  destruct (Hid (log EvGetRealm (init lines))) as (e & w' & He).
  rewrite He in H. discriminate.
Qed.

(** C4, amended.  An invocation with exactly one of the two positionals
    always fails without calling [do_create_user]; when the ToS flag is
    set and the realm resolves, it fails with the usage error of line 59,
    the realm lookup being all it has done. *)
Theorem usage_error_on_one_positional (options : Options)
        (lines : list str) :
  exactly_one_positional options = true ->
  (exists e w, run options lines = (Raise e, w) /\ creations w = 0) /\
  (forall realm,
      tos options = true ->
      get_realm options = Return (Some realm) ->
      run options lines =
      (Raise (CommandError MSG_USAGE), log EvGetRealm (init lines))).
Proof.
  intros Hone. split.
  - apply run_fails_at_identity. intros w.
    exists (CommandError MSG_USAGE), w.
    apply resolve_identity_one_positional, Hone.
  - intros realm Htos Hrealm.
    unfold run, handle, resolve_realm, bind, call, ret, raise.
    rewrite Htos, Hrealm. simpl.
    rewrite resolve_identity_one_positional by exact Hone. reflexivity.
Qed.

(** C5, amended.  An invocation with both positionals whose email the
    validator refuses always fails without calling [do_create_user]; when
    the ToS flag is set and the realm resolves, it fails with
    [CommandError("Invalid email address.")], having looked up the realm
    and validated the email and nothing more. *)
Theorem invalid_email_rejected (options : Options) (lines : list str)
        (address name : str) :
  email options = Some address ->
  full_name options = Some name ->
  validate_email address = false ->
  (exists e w, run options lines = (Raise e, w) /\ creations w = 0) /\
  (forall realm,
      tos options = true ->
      get_realm options = Return (Some realm) ->
      run options lines =
      (Raise (CommandError MSG_INVALID_EMAIL),
       log (EvValidateEmail address) (log EvGetRealm (init lines)))).
Proof.
  intros He Hn Hv. split.
  - apply run_fails_at_identity. intros w.
    exists (CommandError MSG_INVALID_EMAIL), (log (EvValidateEmail address) w).
    apply resolve_identity_invalid with (name := name); assumption.
  - intros realm Htos Hrealm.
    unfold run, handle, resolve_realm, bind, call, ret, raise.
    rewrite Htos, Hrealm. simpl.
    rewrite (resolve_identity_invalid _ _ He Hn Hv). reflexivity.
Qed.

(** *** The prompts *)

Lemma email_loop_from_refused (refused : list str) :
  forall (address : str) (rest : list str) (tr : list Event),
    forallb (fun line => negb (validate_email line)) refused = true ->
    validate_email address = true ->
    email_loop_from (refused ++ address :: rest) tr =
    (Return address,
     mkWorld rest (tr ++ flat_map refused_turn refused
                      ++ [EvInput PROMPT_EMAIL; EvValidateEmail address])).
Proof.
  induction refused as [|line refused IH]; intros address rest tr Hbad Hok;
    simpl.
  - rewrite Hok, <- app_assoc. reflexivity.
  - simpl in Hbad. apply andb_true_iff in Hbad as [Hline Hbad].
    apply negb_true_iff in Hline. rewrite Hline.
    rewrite IH by assumption. rewrite <- !app_assoc. reflexivity.
Qed.

(** Only end of file ends the loop while the validator refuses every
    line. *)
Lemma email_loop_from_eof (pending : list str) :
  forall tr,
    forallb (fun line => negb (validate_email line)) pending = true ->
    fst (email_loop_from pending tr) = Raise EOFError.
Proof.
  induction pending as [|line rest IH]; intros tr Hbad; simpl.
  - reflexivity.
  - simpl in Hbad. apply andb_true_iff in Hbad as [Hline Hbad].
    apply negb_true_iff in Hline. rewrite Hline. apply IH, Hbad.
Qed.

(** C8, amended.  With the ToS flag set, the realm resolved and neither
    positional given, on a standard input that holds lines the validator
    refuses, then one it accepts, then one more line: every refused line
    is prompted for with [Email: ], validated and answered with
    [Invalid email address.] on standard error; the accepted line is
    prompted for and validated and becomes the email; [Full name: ] is
    prompted once and the next line becomes the full name, no validator
    called on it; the run then goes on to the [try] block with that
    email and full name, the lines after them still pending. *)
Theorem interactive_prompts (options : Options) (realm : Realm)
        (refused : list str) (address name : str) (rest : list str) :
  tos options = true ->
  get_realm options = Return (Some realm) ->
  email options = None ->
  full_name options = None ->
  forallb (fun line => negb (validate_email line)) refused = true ->
  validate_email address = true ->
  let lines := refused ++ address :: name :: rest in
  let w :=
    mkWorld rest
            ([EvGetRealm] ++ flat_map refused_turn refused
               ++ [EvInput PROMPT_EMAIL; EvValidateEmail address]
               ++ [EvInput PROMPT_FULL_NAME]) in
  resolve_identity options (log EvGetRealm (init lines))
    = (Return (address, name), w) /\
  run options lines = create_block options address realm name w.
Proof.
  intros Htos Hrealm He Hn Hbad Hok lines w.
  assert (Hid : resolve_identity options (log EvGetRealm (init lines))
                = (Return (address, name), w)).
  { unfold resolve_identity, try_except, bind at 1, getitem, raise.
    rewrite He, Hn. simpl.
    unfold bind, email_loop, input, ret. simpl. unfold lines.
    rewrite email_loop_from_refused by assumption. simpl.
    unfold w. rewrite <- !app_assoc. reflexivity. }
  split; [exact Hid|].
  apply run_reaches. repeat split; assumption.
Qed.

(** *** The password *)

Lemma not_in_trace (w : World) (ev : Event) :
  creations w = 0 -> In ev (trace w) -> is_create ev = false.
Proof.
  unfold creations. intros H Hin.
  destruct (is_create ev) eqn:Hev; [|reflexivity].
  assert (Hf : In ev (filter is_create (trace w)))
    by (apply filter_In; split; assumption).
  destruct (filter is_create (trace w)); [destruct Hf|discriminate].
Qed.

(** A call of [do_create_user] in a run carries the password that
    password resolution returned, and no acting user. *)
Lemma run_create_event (options : Options) (lines : list str)
      (address pw : str) (realm : Realm) (name : str)
      (acting_user : option UserProfile) :
  In (EvCreateUser address pw realm name acting_user)
     (trace (snd (run options lines))) ->
  exists w w',
    reaches_try_block options lines address realm name w /\
    resolve_password options address w = (Return pw, w') /\
    acting_user = None.
Proof.
  intros Hin.
  destruct (run_cases options lines)
    as [(e & w & Hrun & Hc)|(a & r & n & w & Hreach)].
  - rewrite Hrun in Hin. simpl in Hin.
    apply (not_in_trace _ _ Hc) in Hin. discriminate.
  - pose proof (reaches_no_create Hreach) as Hc.
    rewrite (run_reaches Hreach), create_block_cases in Hin.
    pose proof (resolve_password_no_create options a w) as Hc'.
    destruct (resolve_password options a w) as [[p|e] w'] eqn:Hpw;
      simpl in Hin, Hc'; rewrite Hc in Hc'.
    + apply in_app_or in Hin as [Hin|[Hin|[]]].
      * apply (not_in_trace _ _ Hc') in Hin. discriminate.
      * inversion Hin; subst. exists w, w'.
        split; [exact Hreach|split; [exact Hpw|reflexivity]].
    + apply (not_in_trace _ _ Hc') in Hin. discriminate.
Qed.

(** C1.  Password resolution takes the first of three sources: the
    password file when [--password-file] is given (the password is what is
    read from the file, trimmed); else the string of [--password]; else the
    initial password of the email.  With a password file the value of
    [--password] plays no part: resolution and the [try] block are the same
    for every value of it, and a call of [do_create_user] in a run with
    both options carries the password read from the file. *)
Theorem password_precedence (options : Options) (address : str)
        (w : World) :
  (forall path text,
      password_file options = Some path ->
      read_text path = inr text ->
      resolve_password options address w
      = (Return (strip text), log (EvOpen path) w)) /\
  (forall p,
      password_file options = None ->
      password options = Some p ->
      resolve_password options address w = (Return p, w)) /\
  (forall p,
      password_file options = None ->
      password options = None ->
      initial_password address = Some p ->
      resolve_password options address w
      = (Return p, log (EvInitialPassword address) w)) /\
  (forall path p,
      password_file options = Some path ->
      resolve_password (with_password options p) address w
      = resolve_password options address w /\
      forall realm name,
        create_block (with_password options p) address realm name w
        = create_block options address realm name w) /\
  (forall path p lines a pw realm name acting_user,
      password_file options = Some path ->
      password options = Some p ->
      In (EvCreateUser a pw realm name acting_user)
         (trace (snd (run options lines))) ->
      exists text, read_text path = inr text /\ pw = strip text).
Proof.
  repeat split.
  - intros path text Hf Hr.
    unfold resolve_password, open_read, bind, call, ret.
    rewrite Hf, Hr. reflexivity.
  - intros p Hf Hp. unfold resolve_password. rewrite Hf, Hp. reflexivity.
  - intros p Hf Hp Hi.
    unfold resolve_password, bind, call, ret. rewrite Hf, Hp, Hi.
    reflexivity.
  - unfold resolve_password, with_password. simpl.
    rewrite H. reflexivity.
  - intros realm name.
    unfold create_block, try_except, bind, resolve_password, with_password.
    simpl. rewrite H. reflexivity.
  - intros path p lines a pw realm name acting_user Hf Hp Hin.
    apply run_create_event in Hin as (w1 & w2 & _ & Hpw & _).
    unfold resolve_password, open_read, bind, call, ret in Hpw.
    rewrite Hf in Hpw.
    destruct (read_text path) as [err|text]; [discriminate|].
    exists text. inversion Hpw. split; reflexivity.
Qed.

(** C6.  With a password file that can be read, the resolved password is
    the text of the file without the white space at its two ends: the
    text is white space, then the password, then white space, and the
    password neither starts nor ends with white space.  A run that gets to
    the [try] block calls [do_create_user] with that password.  For the
    text ["  secret123  \n"] the password is ["secret123"]. *)
Theorem password_file_stripped (options : Options) (lines : list str)
        (address : str) (realm : Realm) (name : str) (w : World)
        (path text : str) :
  reaches_try_block options lines address realm name w ->
  password_file options = Some path ->
  read_text path = inr text ->
  resolve_password options address w
    = (Return (strip text), log (EvOpen path) w) /\
  snd (run options lines)
    = log (EvCreateUser address (strip text) realm name None)
          (log (EvOpen path) w) /\
  (exists l r, text = l ++ strip text ++ r /\
               forallb isspace l = true /\ forallb isspace r = true) /\
  (forall c, first_char (strip text) = Some c -> isspace c = false) /\
  (forall c, last_char (strip text) = Some c -> isspace c = false) /\
  (text = lit "  secret123  " ++ [LF] -> strip text = lit "secret123").
Proof.
  intros Hreach Hf Hr.
  assert (Hpw : resolve_password options address w
                = (Return (strip text), log (EvOpen path) w)).
  { unfold resolve_password, open_read, bind, call, ret.
    rewrite Hf, Hr. reflexivity. }
  split; [exact Hpw|]. split.
  - rewrite (run_reaches Hreach), create_block_cases, Hpw. reflexivity.
  - destruct (strip_spec text) as (H1 & H2 & H3).
    repeat split; try assumption.
    intros ->. reflexivity.
Qed.

(** C7.  In a run that gets to the [try] block with neither
    [--password-file] nor [--password], the command calls
    [initial_password] on the email.  When the helper returns [None] the
    command ends in [CommandError("Password is unusable.")] with a
    non-zero exit status and [do_create_user] is not called; when it
    returns a password, that is the resolved password, the one
    [do_create_user] is called with. *)
Theorem initial_password_fallback (options : Options) (lines : list str)
        (address : str) (realm : Realm) (name : str) (w : World) :
  reaches_try_block options lines address realm name w ->
  password_file options = None ->
  password options = None ->
  (initial_password address = None ->
   run options lines
     = (Raise (CommandError MSG_UNUSABLE),
        log (EvInitialPassword address) w) /\
   creations (snd (run options lines)) = 0 /\
   exit_status (fst (run options lines)) <> 0%Z) /\
  (forall p,
      initial_password address = Some p ->
      resolve_password options address w
        = (Return p, log (EvInitialPassword address) w) /\
      snd (run options lines)
        = log (EvCreateUser address p realm name None)
              (log (EvInitialPassword address) w)).
Proof.
  intros Hreach Hf Hp.
  pose proof (reaches_no_create Hreach) as Hc.
  rewrite (run_reaches Hreach), create_block_cases.
  unfold resolve_password, bind, call, ret, raise. rewrite Hf, Hp.
  split.
  - intros ->. simpl. split; [reflexivity|]. split; [|discriminate].
    rewrite creations_log by reflexivity. exact Hc.
  - intros p ->. split; reflexivity.
Qed.

(** C10.  In a run that gets to the [try] block with a password file that
    cannot be opened or read, the error of the file system leaves the
    command as it is: the run ends in that exception, which is no
    [CommandError], right after the attempt to open the file, and
    [do_create_user] is not called. *)
Theorem password_file_error_propagates (options : Options)
        (lines : list str) (address : str) (realm : Realm) (name : str)
        (w : World) (path : str) (err : io_error) :
  reaches_try_block options lines address realm name w ->
  password_file options = Some path ->
  read_text path = inl err ->
  run options lines = (Raise (IOError err), log (EvOpen path) w) /\
  reported_error (fst (run options lines)) = None /\
  creations (snd (run options lines)) = 0.
Proof.
  intros Hreach Hf Hr.
  pose proof (reaches_no_create Hreach) as Hc.
  rewrite (run_reaches Hreach), create_block_cases.
  unfold resolve_password, open_read, bind, call, ret. rewrite Hf, Hr.
  simpl. repeat split.
  rewrite creations_log by reflexivity. exact Hc.
Qed.

(** *** The delegate call *)

(** C3.  In a run that gets to the [try] block: when [do_create_user]
    raises [IntegrityError] the command ends in
    [CommandError("User already exists.")], which is the message reported,
    with a non-zero exit status; any other exception of [do_create_user]
    leaves the command unchanged; and so does every exception of password
    resolution, none of which is an [IntegrityError]. *)
Theorem integrity_error_translation (options : Options) (lines : list str)
        (address : str) (realm : Realm) (name : str) (w : World) :
  reaches_try_block options lines address realm name w ->
  (forall pw w' msg,
      resolve_password options address w = (Return pw, w') ->
      do_create_user address pw realm name None
        = Raise (IntegrityError msg) ->
      run options lines
        = (Raise (CommandError MSG_EXISTS),
           log (EvCreateUser address pw realm name None) w') /\
      reported_error (fst (run options lines)) = Some (lit "User already exists.") /\
      exit_status (fst (run options lines)) <> 0%Z) /\
  (forall pw w' e,
      resolve_password options address w = (Return pw, w') ->
      do_create_user address pw realm name None = Raise e ->
      is_IntegrityError e = false ->
      run options lines
        = (Raise e, log (EvCreateUser address pw realm name None) w')) /\
  (forall e w',
      resolve_password options address w = (Raise e, w') ->
      is_IntegrityError e = false /\
      run options lines = (Raise e, w')).
Proof.
  intros Hreach.
  rewrite (run_reaches Hreach), create_block_cases.
  split; [|split].
  - intros pw w' msg -> ->. simpl. repeat split. discriminate.
  - intros pw w' e -> -> ->. reflexivity.
  - intros e w' Hpw. rewrite Hpw. split; [|reflexivity].
    apply resolve_password_raises in Hpw.
    destruct Hpw as [[err ->]| ->]; reflexivity.
Qed.

(** C9.  A run that succeeds got to the [try] block with a realm, an
    email and a full name, resolved a password, and then called
    [do_create_user] on that email, password, realm and full name with
    [acting_user=None]; that call is the last event of the run and the
    only call of [do_create_user] in it. *)
Theorem successful_run_creates_once (options : Options) (lines : list str)
        (w' : World) :
  run options lines = (Return tt, w') ->
  exists address realm name pw w1 w2,
    reaches_try_block options lines address realm name w1 /\
    resolve_password options address w1 = (Return pw, w2) /\
    w' = log (EvCreateUser address pw realm name None) w2 /\
    filter is_create (trace w')
      = [EvCreateUser address pw realm name None] /\
    creations w' = 1.
Proof.
  intros Hrun.
  destruct (run_cases options lines)
    as [(e & w & Hfail & _)|(address & realm & name & w1 & Hreach)].
  { rewrite Hfail in Hrun. discriminate. }
  pose proof (reaches_no_create Hreach) as Hc.
  rewrite (run_reaches Hreach), create_block_cases in Hrun.
  pose proof (resolve_password_no_create options address w1) as Hc'.
  destruct (resolve_password options address w1) as [[pw|e] w2] eqn:Hpw;
    [|discriminate].
  simpl in Hc'. rewrite Hc in Hc'.
  exists address, realm, name, pw, w1, w2.
  assert (Hw : w' = log (EvCreateUser address pw realm name None) w2)
    by (inversion Hrun; reflexivity).
  assert (Hfilter : filter is_create (trace w')
                    = [EvCreateUser address pw realm name None]).
  { rewrite Hw, filter_create_log. simpl.
    unfold creations in Hc'.
    destruct (filter is_create (trace w2)); [reflexivity|discriminate]. }
  split; [exact Hreach|]. split; [exact Hpw|]. split; [exact Hw|].
  split; [exact Hfilter|].
  unfold creations. rewrite Hfilter. reflexivity.
Qed.

End Properties.

(** ** The password file, further *)

Lemma lstrip_spaces (l s : str) :
  forallb isspace l = true -> lstrip (l ++ s) = lstrip s.
Proof.
  induction l as [|c l IH]; simpl; [reflexivity|].
  intros H. apply andb_true_iff in H as [Hc Hl]. rewrite Hc. apply IH, Hl.
Qed.

Lemma lstrip_all_spaces (l : str) :
  forallb isspace l = true -> lstrip l = [].
Proof.
  intros H. rewrite <- (app_nil_r l), lstrip_spaces by exact H. reflexivity.
Qed.

Lemma forallb_rev_spaces (l : str) :
  forallb isspace l = true -> forallb isspace (rev l) = true.
Proof.
  rewrite !forallb_forall. intros H x Hx. apply H, in_rev, Hx.
Qed.

Lemma rstrip_spaces (s r : str) :
  forallb isspace r = true -> rstrip (s ++ r) = rstrip s.
Proof.
  intros H. unfold rstrip.
  rewrite rev_app_distr, lstrip_spaces by (apply forallb_rev_spaces, H).
  reflexivity.
Qed.

Lemma lstrip_fixed (s : str) :
  (forall c, first_char s = Some c -> isspace c = false) -> lstrip s = s.
Proof.
  destruct s as [|c s]; simpl; [reflexivity|].
  intros H. rewrite (H c eq_refl). reflexivity.
Qed.

Lemma rstrip_fixed (s : str) :
  (forall c, last_char s = Some c -> isspace c = false) -> rstrip s = s.
Proof.
  intros H. unfold rstrip. rewrite lstrip_fixed by exact H.
  apply rev_involutive.
Qed.

Lemma trimmed_ends (p : str) :
  trimmed p = true ->
  (forall c, first_char p = Some c -> isspace c = false) /\
  (forall c, last_char p = Some c -> isspace c = false).
Proof.
  unfold trimmed.
  destruct (first_char p) as [a|] eqn:Ha.
  - destruct (last_char p) as [b|] eqn:Hb.
    + intros H. apply andb_true_iff in H as [H1 H2].
      apply negb_true_iff in H1, H2.
      split; intros c Hc; inversion Hc; subst; assumption.
    + unfold first_char, last_char in *.
      destruct p as [|c p]; [discriminate|].
      simpl in Hb. destruct (rev p); discriminate.
  - intros _. unfold first_char, last_char in *.
    destruct p; [|discriminate].
    split; intros c Hc; discriminate.
Qed.

(** X10.  Reading back a padded password: for a string [p] that neither
    starts nor ends with white space, [strip] of [p] with any white space
    before it and any white space after it (a final newline, say) is [p];
    in particular it keeps the white space inside [p]. *)
Theorem strip_padding (l p r : str) :
  forallb isspace l = true ->
  forallb isspace r = true ->
  trimmed p = true ->
  strip (l ++ p ++ r) = p.
Proof.
  intros Hl Hr Hp. apply trimmed_ends in Hp as [Hfirst Hlast].
  unfold strip. rewrite lstrip_spaces by exact Hl.
  destruct p as [|c p].
  - simpl. rewrite lstrip_all_spaces by exact Hr. reflexivity.
  - rewrite lstrip_fixed.
    + rewrite rstrip_spaces by exact Hr. apply rstrip_fixed, Hlast.
    + intros d Hd. apply Hfirst. exact Hd.
Qed.

(** ** The run as a whole *)

Section Further.

Context {I : Installation}.

(** *** What the stages before the [try] block leave in the trace *)

Section Kinds.

(** A kind of event that neither the realm lookup, nor the validator, nor
    the console produces. *)
Variable kind : Event -> bool.
Hypothesis kind_realm : kind EvGetRealm = false.
Hypothesis kind_validate : forall a, kind (EvValidateEmail a) = false.
Hypothesis kind_input : forall p, kind (EvInput p) = false.
Hypothesis kind_stderr : forall l, kind (EvStderr l) = false.

Lemma filter_kind_log (ev : Event) (w : World) :
  kind ev = false ->
  filter kind (trace (log ev w)) = filter kind (trace w).
Proof.
  intros H. unfold log. simpl. rewrite filter_app. simpl. rewrite H.
  apply app_nil_r.
Qed.

Lemma email_loop_from_keeps (pending : list str) :
  forall tr,
    filter kind (trace (snd (email_loop_from pending tr))) = filter kind tr.
Proof.
  induction pending as [|line rest IH]; intros tr; simpl.
  - rewrite filter_app. simpl. rewrite kind_input. apply app_nil_r.
  - destruct (validate_email line); simpl; [|rewrite IH];
      rewrite !filter_app; simpl;
      rewrite ?kind_input, ?kind_validate, ?kind_stderr, !app_nil_r;
      reflexivity.
Qed.

Lemma resolve_identity_keeps (options : Options) (w : World) :
  filter kind (trace (snd (resolve_identity options w)))
  = filter kind (trace w).
Proof.
  unfold resolve_identity, try_except, bind, getitem, ret, raise,
    do_validate_email, call, input, email_loop.
  destruct (email options) as [address|], (full_name options) as [name|];
    simpl; try reflexivity.
  - destruct (validate_email address); simpl;
      rewrite filter_app; simpl; rewrite kind_validate; apply app_nil_r.
  - pose proof (email_loop_from_keeps (stdin w) (trace w)) as H.
    destruct (email_loop_from (stdin w) (trace w)) as [[address|e] w1];
      simpl in *; [|exact H].
    destruct (stdin w1) as [|line rest]; simpl;
      rewrite filter_app; simpl; rewrite kind_input, app_nil_r; exact H.
Qed.

(** Up to the [try] block a run produces no event of the kind. *)
Lemma run_before_try_block (options : Options) (lines : list str) :
  filter kind (trace (snd (run options lines))) = [] \/
  exists address realm name w,
    reaches_try_block options lines address realm name w /\
    filter kind (trace w) = [].
Proof.
  assert (Hid : filter kind (trace (snd (resolve_identity
                                          options (log EvGetRealm (init lines)))))
                = []).
  { rewrite resolve_identity_keeps, filter_kind_log by assumption.
    reflexivity. }
  destruct (tos options) eqn:Htos.
  2:{ left. unfold run, handle, bind, raise. rewrite Htos. reflexivity. }
  destruct (get_realm options) as [[realm|]|e] eqn:Hrealm.
  - destruct (resolve_identity options (log EvGetRealm (init lines)))
      as [[[address name]|e] w] eqn:Hres.
    + right. exists address, realm, name, w. split.
      * repeat split; assumption.
      * exact Hid.
    + left. unfold run, handle, resolve_realm, bind, call, ret, raise.
      rewrite Htos, Hrealm. simpl. rewrite Hres. simpl.
      exact Hid.
  - left. unfold run, handle, resolve_realm, bind, call, ret, raise.
    rewrite Htos, Hrealm. simpl. rewrite kind_realm. reflexivity.
  - left. unfold run, handle, resolve_realm, bind, call, ret, raise.
    rewrite Htos, Hrealm. simpl. rewrite kind_realm. reflexivity.
Qed.

End Kinds.

(** The loop only returns a line the validator accepts. *)
Lemma email_loop_from_valid (pending : list str) :
  forall tr address w,
    email_loop_from pending tr = (Return address, w) ->
    validate_email address = true.
Proof.
  induction pending as [|line rest IH]; intros tr address w; simpl.
  - discriminate.
  - destruct (validate_email line) eqn:Hline.
    + intros H. inversion H; subst. exact Hline.
    + apply IH.
Qed.


(** The email the identity stage returns is one the validator accepts. *)
Lemma resolve_identity_valid (options : Options) (w w' : World)
      (address name : str) :
  resolve_identity options w = (Return (address, name), w') ->
  validate_email address = true.
Proof.
  unfold resolve_identity, try_except, bind, getitem, ret, raise,
    do_validate_email, call, input, email_loop.
  destruct (email options) as [a|], (full_name options) as [n|]; simpl;
    try discriminate.
  - destruct (validate_email a) eqn:Ha; simpl; [|discriminate].
    intros H. inversion H; subst. exact Ha.
  - destruct (email_loop_from (stdin w) (trace w)) as [[a|e] w1] eqn:Hloop;
      simpl; [|discriminate].
    apply email_loop_from_valid in Hloop.
    destruct (stdin w1); simpl; [discriminate|].
    intros H. inversion H; subst. exact Hloop.
Qed.

(** X1.  [do_create_user] is only ever called on an email that
    [validate_email] accepts, whether the email came from the command line
    or from the prompt. *)
Theorem created_email_is_valid (options : Options) (lines : list str)
        (address pw : str) (realm : Realm) (name : str)
        (acting_user : option UserProfile) :
  In (EvCreateUser address pw realm name acting_user)
     (trace (snd (run options lines))) ->
  validate_email address = true.
Proof.
  intros Hin.
  apply run_create_event in Hin as (w & w' & (_ & _ & Hid) & _ & _).
  apply (resolve_identity_valid _ _ Hid).
Qed.

(** X2.  No run calls [do_create_user] twice, and a run that calls it does
    nothing after the call: the call is the latest event when the run
    ends, whether it ends well or not. *)
Theorem create_user_at_most_once_and_last (options : Options)
        (lines : list str) :
  creations (snd (run options lines)) <= 1 /\
  (creations (snd (run options lines)) = 1 ->
   exists address pw realm name,
     last_event (snd (run options lines))
     = Some (EvCreateUser address pw realm name None)).
Proof.
  destruct (run_cases options lines)
    as [(e & w & Hrun & Hc)|(address & realm & name & w & Hreach)].
  - rewrite Hrun. simpl. rewrite Hc. split; [apply le_S, le_n|discriminate].
  - pose proof (reaches_no_create Hreach) as Hc.
    rewrite (run_reaches Hreach), create_block_cases.
    pose proof (resolve_password_no_create options address w) as Hc'.
    destruct (resolve_password options address w) as [[pw|e] w'];
      simpl in Hc' |- *; rewrite Hc in Hc'.
    + split.
      * unfold creations. rewrite filter_create_log. simpl.
        unfold creations in Hc'. rewrite length_app, Hc'. apply le_n.
      * intros _. exists address, pw, realm, name.
        unfold last_event, log. simpl. rewrite rev_app_distr. reflexivity.
    + rewrite Hc'. split; [apply le_S, le_n|discriminate].
Qed.

(** *** The console *)

Lemma resolve_password_console (options : Options) (address : str)
      (w : World) :
  stdin (snd (resolve_password options address w)) = stdin w /\
  filter is_console (trace (snd (resolve_password options address w)))
  = filter is_console (trace w).
Proof.
  unfold resolve_password, open_read, bind, call, ret, raise.
  destruct (password_file options) as [path|]; simpl.
  - destruct (read_text path); simpl; rewrite filter_app; simpl;
      rewrite app_nil_r; split; reflexivity.
  - destruct (password options) as [p|]; simpl; [split; reflexivity|].
    destruct (initial_password address); simpl; rewrite filter_app; simpl;
      rewrite app_nil_r; split; reflexivity.
Qed.

Lemma create_block_console (options : Options) (address : str)
      (realm : Realm) (name : str) (w : World) :
  stdin (snd (create_block options address realm name w)) = stdin w /\
  filter is_console (trace (snd (create_block options address realm name w)))
  = filter is_console (trace w).
Proof.
  rewrite create_block_cases.
  pose proof (resolve_password_console options address w) as [Hs Hf].
  destruct (resolve_password options address w) as [[pw|e] w'];
    simpl in *; [|split; assumption].
  rewrite filter_app. simpl. rewrite app_nil_r. split; assumption.
Qed.

(** X3.  With a positional on the command line the command leaves the
    console alone: however the run ends, it has prompted for nothing,
    written nothing on standard error and read nothing from standard
    input. *)
Theorem positionals_leave_console_alone (options : Options)
        (lines : list str) :
  contains (email options) || contains (full_name options) = true ->
  stdin (snd (run options lines)) = lines /\
  occurrences is_console (snd (run options lines)) = 0.
Proof.
  intros Hpos. unfold occurrences.
  assert (Hid : stdin (snd (resolve_identity
                              options (log EvGetRealm (init lines)))) = lines /\
                filter is_console
                       (trace (snd (resolve_identity
                                      options (log EvGetRealm (init lines)))))
                = []).
  { unfold resolve_identity, try_except, bind, getitem, ret, raise,
      do_validate_email, call.
    destruct (email options) as [a|], (full_name options) as [n|];
      simpl in Hpos |- *; try discriminate; try (split; reflexivity).
    destruct (validate_email a); simpl; split; reflexivity. }
  destruct (tos options) eqn:Htos.
  2:{ unfold run, handle, bind, raise. rewrite Htos. split; reflexivity. }
  unfold run, handle, resolve_realm, bind, call, ret, raise. rewrite Htos.
  simpl.
  destruct (get_realm options) as [[realm|]|e]; try (split; reflexivity).
  destruct (resolve_identity options (log EvGetRealm (init lines)))
    as [[[address name]|e] w]; simpl in Hid |- *; destruct Hid as [Hs Hf];
    [|rewrite Hf; split; [exact Hs|reflexivity]].
  destruct (create_block_console options address realm name w) as [Hs' Hf'].
  rewrite Hs', Hf', Hs, Hf. split; reflexivity.
Qed.

Lemma email_loop_from_all_refused (pending : list str) :
  forall tr,
    forallb (fun line => negb (validate_email line)) pending = true ->
    email_loop_from pending tr =
    (Raise EOFError,
     mkWorld [] (tr ++ flat_map refused_turn pending ++ [EvInput PROMPT_EMAIL])).
Proof.
  induction pending as [|line rest IH]; intros tr Hbad; simpl.
  - reflexivity.
  - simpl in Hbad. apply andb_true_iff in Hbad as [Hline Hbad].
    apply negb_true_iff in Hline. rewrite Hline.
    rewrite IH by exact Hbad. rewrite <- !app_assoc. reflexivity.
Qed.

(** X4.  Prompting for the email on a standard input that runs out: with
    the ToS flag set, the realm resolved and no positional, when the
    validator refuses every line there is (none at all included), the
    command answers each line on standard error, prompts once more and
    ends in the [EOFError] of [input], which is no [CommandError];
    [do_create_user] is not called. *)
Theorem email_prompt_end_of_input (options : Options) (realm : Realm)
        (lines : list str) :
  tos options = true ->
  get_realm options = Return (Some realm) ->
  email options = None ->
  full_name options = None ->
  forallb (fun line => negb (validate_email line)) lines = true ->
  run options lines
  = (Raise EOFError,
     mkWorld [] ([EvGetRealm] ++ flat_map refused_turn lines
                   ++ [EvInput PROMPT_EMAIL])) /\
  reported_error (fst (run options lines)) = None /\
  creations (snd (run options lines)) = 0.
Proof.
  intros Htos Hrealm He Hn Hbad.
  assert (Hrun : run options lines
                 = (Raise EOFError,
                    mkWorld [] ([EvGetRealm] ++ flat_map refused_turn lines
                                  ++ [EvInput PROMPT_EMAIL]))).
  { unfold run, handle, resolve_realm, bind at 1 2 3, call, ret, raise.
    rewrite Htos, Hrealm. simpl.
    unfold resolve_identity, try_except, bind at 1, getitem, raise.
    rewrite He, Hn. simpl.
    unfold bind, email_loop. simpl.
    rewrite email_loop_from_all_refused by exact Hbad. reflexivity. }
  split; [exact Hrun|]. split; [rewrite Hrun; reflexivity|].
  destruct (run_cases options lines)
    as [(e & w & Hfail & Hc)|(a & r & n & w & _ & _ & Hid)].
  - rewrite Hfail. exact Hc.
  - exfalso. revert Hid.
    unfold resolve_identity, try_except, bind at 1, getitem, raise.
    rewrite He, Hn. simpl. unfold bind, email_loop. simpl.
    rewrite email_loop_from_all_refused by exact Hbad. discriminate.
Qed.

(** X5.  Standard input running out at the full name: with the ToS flag
    set, the realm resolved and no positional, when standard input ends
    right after the first line the validator accepts, the command prompts
    for the full name and ends in [EOFError]; the accepted email is
    dropped and [do_create_user] is not called. *)
Theorem full_name_prompt_end_of_input (options : Options) (realm : Realm)
        (refused : list str) (address : str) :
  tos options = true ->
  get_realm options = Return (Some realm) ->
  email options = None ->
  full_name options = None ->
  forallb (fun line => negb (validate_email line)) refused = true ->
  validate_email address = true ->
  run options (refused ++ [address])
  = (Raise EOFError,
     mkWorld [] ([EvGetRealm] ++ flat_map refused_turn refused
                   ++ [EvInput PROMPT_EMAIL; EvValidateEmail address]
                   ++ [EvInput PROMPT_FULL_NAME])) /\
  creations (snd (run options (refused ++ [address]))) = 0.
Proof.
  intros Htos Hrealm He Hn Hbad Hok.
  assert (Hid : resolve_identity options
                  (log EvGetRealm (init (refused ++ [address])))
                = (Raise EOFError,
                   mkWorld [] ([EvGetRealm] ++ flat_map refused_turn refused
                                 ++ [EvInput PROMPT_EMAIL;
                                     EvValidateEmail address]
                                 ++ [EvInput PROMPT_FULL_NAME]))).
  { unfold resolve_identity, try_except, bind at 1, getitem, raise.
    rewrite He, Hn. simpl. unfold bind, email_loop, input, log. simpl.
    rewrite email_loop_from_refused by assumption. simpl.
    rewrite <- !app_assoc. reflexivity. }
  assert (Hrun : run options (refused ++ [address])
                 = (Raise EOFError,
                    mkWorld [] ([EvGetRealm] ++ flat_map refused_turn refused
                                  ++ [EvInput PROMPT_EMAIL;
                                      EvValidateEmail address]
                                  ++ [EvInput PROMPT_FULL_NAME]))).
  { unfold run, handle, resolve_realm, bind, call, ret, raise.
    rewrite Htos, Hrealm. simpl. rewrite Hid. reflexivity. }
  split; [exact Hrun|].
  destruct (run_cases options (refused ++ [address]))
    as [(e & w & Hfail & Hc)|(a & r & n & w & _ & _ & Hid')].
  - rewrite Hfail. exact Hc.
  - rewrite Hid in Hid'. discriminate.
Qed.

(** *** The realm *)

(** X6.  A realm that does not resolve ends the command before it looks at
    anything else: with the ToS flag set, an exception of [get_realm]
    leaves the command as it is, and a [None] from [get_realm] fails the
    assertion of line 48; either way the realm lookup is the only thing
    the command has done, whatever the positionals, the password options
    and standard input are. *)
Theorem unresolved_realm_stops_the_run (options : Options)
        (lines : list str) :
  tos options = true ->
  (forall e,
      get_realm options = Raise e ->
      run options lines = (Raise e, log EvGetRealm (init lines))) /\
  (get_realm options = Return None ->
   run options lines = (Raise AssertionError, log EvGetRealm (init lines))).
Proof.
  intros Htos.
  split; [intros e Hrealm|intros Hrealm];
    unfold run, handle, resolve_realm, bind, call, ret, raise;
    rewrite Htos, Hrealm; reflexivity.
Qed.

(** *** The sources of the password *)

Lemma filter_orb_nil (A : Type) (f g : A -> bool) (l : list A) :
  filter (fun x => f x || g x) l = [] ->
  filter f l = [] /\ filter g l = [].
Proof.
  induction l as [|x l IH]; simpl; [split; reflexivity|].
  destruct (f x), (g x); simpl; try discriminate. exact IH.
Qed.

(** X7.  A run consults at most one source for the password, at most
    once: it opens a file or calls [initial_password], never both and
    never twice.  Without [--password-file] it opens no file; with
    [--password-file] or [--password] it never calls [initial_password]. *)
Theorem one_password_source (options : Options) (lines : list str) :
  occurrences is_open (snd (run options lines))
    + occurrences is_initial_password (snd (run options lines)) <= 1 /\
  (password_file options = None ->
   occurrences is_open (snd (run options lines)) = 0) /\
  (password_file options <> None \/ password options <> None ->
   occurrences is_initial_password (snd (run options lines)) = 0).
Proof.
  unfold occurrences.
  destruct (run_before_try_block
              (fun ev => is_open ev || is_initial_password ev)
              eq_refl (fun _ => eq_refl) (fun _ => eq_refl)
              (fun _ => eq_refl) options lines)
    as [Hnil|(address & realm & name & w & Hreach & Hnil)];
    apply filter_orb_nil in Hnil as [Ho Hi].
  - rewrite Ho, Hi. simpl.
    split; [apply le_S, le_n|]. split; reflexivity.
  - rewrite (run_reaches Hreach), create_block_cases.
    unfold resolve_password, open_read, bind, call, ret, raise.
    destruct (password_file options) as [path|]; simpl.
    + destruct (read_text path) as [err|text]; simpl;
        rewrite ?filter_app, ?Ho, ?Hi; simpl.
      * split; [apply le_n|]. split; [discriminate|reflexivity].
      * split; [apply le_n|]. split; [discriminate|reflexivity].
    + destruct (password options) as [p|]; simpl.
      * rewrite ?filter_app, ?Ho, ?Hi; simpl.
        split; [apply le_S, le_n|]. split; reflexivity.
      * destruct (initial_password address) as [p|]; simpl;
          rewrite ?filter_app, ?Ho, ?Hi; simpl;
          (split; [apply le_n|]; split; [reflexivity|]);
          intros [H|H]; contradiction.
Qed.

(** X9.  An empty or blank password file is no error for the command:
    when the file holds nothing but white space, the resolved password is
    the empty string, and a run that gets to the [try] block calls
    [do_create_user] with it. *)
Theorem blank_password_file (options : Options) (lines : list str)
        (address : str) (realm : Realm) (name : str) (w : World)
        (path text : str) :
  reaches_try_block options lines address realm name w ->
  password_file options = Some path ->
  read_text path = inr text ->
  forallb isspace text = true ->
  resolve_password options address w = (Return [], log (EvOpen path) w) /\
  snd (run options lines)
  = log (EvCreateUser address [] realm name None) (log (EvOpen path) w).
Proof.
  intros Hreach Hf Hr Hblank.
  assert (Hstrip : strip text = []).
  { unfold strip. rewrite lstrip_all_spaces by exact Hblank. reflexivity. }
  assert (Hpw : resolve_password options address w
                = (Return [], log (EvOpen path) w)).
  { unfold resolve_password, open_read, bind, call, ret.
    rewrite Hf, Hr, Hstrip. reflexivity. }
  split; [exact Hpw|].
  rewrite (run_reaches Hreach), create_block_cases, Hpw. reflexivity.
Qed.

(** *** How a run ends *)





(** X11.  When the command succeeds: a run returns if and only if it gets
    to the [try] block, the password resolves and [do_create_user]
    returns; the command adds no failure of its own after that. *)
Theorem run_succeeds_iff (options : Options) (lines : list str) :
  fst (run options lines) = Return tt <->
  exists address realm name w pw w' u,
    reaches_try_block options lines address realm name w /\
    resolve_password options address w = (Return pw, w') /\
    do_create_user address pw realm name None = Return u.
Proof.
  split.
  - intros Hrun.
    destruct (run_cases options lines)
      as [(e & w & Hfail & _)|(address & realm & name & w & Hreach)].
    { rewrite Hfail in Hrun. discriminate. }
    rewrite (run_reaches Hreach), create_block_cases in Hrun.
    destruct (resolve_password options address w) as [[pw|e] w'] eqn:Hpw;
      [|discriminate].
    destruct (do_create_user address pw realm name None) as [u|e] eqn:Hc.
    + exists address, realm, name, w, pw, w', u.
      split; [exact Hreach|]. split; [exact Hpw|exact Hc].
    + simpl in Hrun. destruct (is_IntegrityError e); discriminate.
  - intros (address & realm & name & w & pw & w' & u & Hreach & Hpw & Hc).
    rewrite (run_reaches Hreach), create_block_cases, Hpw, Hc. reflexivity.
Qed.

End Further.

(** ** The properties on the sample installation *)

Import Sample.

#[local] Existing Instance installation.

Lemma tos_required_witness :
  tos no_tos = false /\
  sample_run no_tos TYPED = (Raise (CommandError MSG_TOS), init TYPED).
Proof.
  split; [reflexivity|].
  exact (proj1 (proj2 (tos_required (I := installation) no_tos (init []) TYPED
                                eq_refl))).
Defined.

(** C4 as stated fails: with one positional and no ToS flag the command ends
    in the error of the ToS check, not in the usage error. *)
Lemma one_positional_without_tos :
  exactly_one_positional (email_only false) = true /\
  reported_error (fst (sample_run (email_only false) [])) = Some MSG_TOS /\
  reported_error (fst (sample_run (email_only false) [])) <> Some MSG_USAGE.
Proof.
  split; [reflexivity|]. split; [reflexivity|].
  vm_compute. discriminate.
Qed.

Lemma usage_error_on_one_positional_witness :
  exactly_one_positional (email_only true) = true /\
  sample_run (email_only true) []
    = (Raise (CommandError MSG_USAGE), log EvGetRealm (init [])).
Proof.
  split; [reflexivity|].
  exact (proj2 (usage_error_on_one_positional (I := installation)
                  (email_only true) [] eq_refl) 1 eq_refl eq_refl).
Defined.

(** C5 as stated fails: with an email the validator refuses and no ToS flag
    the command ends in the error of the ToS check, the email not
    validated. *)
Lemma invalid_email_without_tos :
  email (bad_email false) = Some (lit "iago.example.com") /\
  full_name (bad_email false) = Some IAGO_NAME /\
  validate_email (lit "iago.example.com")
    = false /\
  sample_run (bad_email false) []
    = (Raise (CommandError MSG_TOS), init []) /\
  reported_error (fst (sample_run (bad_email false) []))
    <> Some (lit "Invalid email address.").
Proof.
  repeat (split; [reflexivity|]).
  vm_compute. discriminate.
Qed.

Lemma invalid_email_rejected_witness :
  validate_email (lit "iago.example.com")
    = false /\
  sample_run (bad_email true) []
    = (Raise (CommandError (lit "Invalid email address.")),
       at_try_block (lit "iago.example.com")).
Proof.
  split; [reflexivity|].
  exact (proj2 (invalid_email_rejected (I := installation)
                  (bad_email true) [] (name := IAGO_NAME)
                  eq_refl eq_refl eq_refl) 1 eq_refl eq_refl).
Defined.

(** C8 as stated fails: with no positional and no ToS flag the command
    prompts for nothing and reads nothing. *)
Lemma no_prompt_without_tos :
  email (interactive false) = None /\
  full_name (interactive false) = None /\
  sample_run (interactive false) TYPED
    = (Raise (CommandError MSG_TOS), init TYPED) /\
  ~ In (EvInput PROMPT_EMAIL)
       (trace (snd (sample_run (interactive false) TYPED))).
Proof.
  repeat (split; [reflexivity|]).
  vm_compute. intros [].
Qed.

Lemma interactive_prompts_witness :
  forallb (fun line => negb (validate_email line))
          REFUSED = true /\
  validate_email IAGO = true /\
  resolve_identity (interactive true) (log EvGetRealm (init TYPED))
    = (Return (IAGO, IAGO_NAME),
       mkWorld [lit "left over"]
               ([EvGetRealm] ++ flat_map refused_turn REFUSED
                  ++ [EvInput PROMPT_EMAIL; EvValidateEmail IAGO]
                  ++ [EvInput PROMPT_FULL_NAME])).
Proof.
  split; [reflexivity|]. split; [reflexivity|].
  exact (proj1 (interactive_prompts (I := installation) (interactive true)
                  (realm := 1) REFUSED IAGO IAGO_NAME [lit "left over"]
                  eq_refl eq_refl eq_refl eq_refl eq_refl eq_refl)).
Defined.

Lemma plain_reaches (options : Options) (address : str) :
  tos options = true ->
  realm_id options = Some (lit "zulip") ->
  email options = Some address ->
  full_name options = Some IAGO_NAME ->
  validate_email address = true ->
  reaches_try_block options [] address 1 IAGO_NAME (at_try_block address).
Proof.
  intros Htos Hrealm He Hn Hv. split; [exact Htos|]. split.
  - simpl. unfold sample_get_realm. rewrite Hrealm. reflexivity.
  - unfold resolve_identity, try_except, bind, getitem, ret, raise,
      do_validate_email, call.
    rewrite He, Hn. simpl in Hv |- *. rewrite Hv. reflexivity.
Defined.

Lemma password_precedence_witness :
  password_file both_passwords = Some PW_PATH /\
  password both_passwords = Some (lit "hunter2") /\
  read_text PW_PATH = inr PW_TEXT /\
  resolve_password both_passwords IAGO (at_try_block IAGO)
    = (Return (lit "secret123"), log (EvOpen PW_PATH) (at_try_block IAGO)).
Proof.
  repeat (split; [reflexivity|]).
  exact (proj1 (password_precedence both_passwords IAGO (at_try_block IAGO))
               PW_PATH PW_TEXT eq_refl eq_refl).
Defined.

Lemma password_file_stripped_witness :
  reaches_try_block both_passwords [] IAGO 1 IAGO_NAME (at_try_block IAGO) /\
  password_file both_passwords = Some PW_PATH /\
  read_text PW_PATH = inr PW_TEXT /\
  resolve_password both_passwords IAGO (at_try_block IAGO)
    = (Return (lit "secret123"), log (EvOpen PW_PATH) (at_try_block IAGO)).
Proof.
  assert (H : reaches_try_block both_passwords [] IAGO 1 IAGO_NAME
                                (at_try_block IAGO))
    by (apply plain_reaches; reflexivity).
  split; [exact H|]. split; [reflexivity|]. split; [reflexivity|].
  exact (proj1 (password_file_stripped H (path := PW_PATH) (text := PW_TEXT)
                                       eq_refl eq_refl)).
Defined.

Lemma initial_password_fallback_witness :
  reaches_try_block unusable [] (lit "nopw@example.com") 1 IAGO_NAME
                    (at_try_block (lit "nopw@example.com")) /\
  password_file unusable = None /\
  password unusable = None /\
  initial_password (lit "nopw@example.com") = None /\
  sample_run unusable []
    = (Raise (CommandError (lit "Password is unusable.")),
       log (EvInitialPassword (lit "nopw@example.com"))
           (at_try_block (lit "nopw@example.com"))).
Proof.
  assert (H : reaches_try_block unusable [] (lit "nopw@example.com") 1
                                IAGO_NAME
                                (at_try_block (lit "nopw@example.com")))
    by (apply plain_reaches; reflexivity).
  split; [exact H|]. repeat (split; [reflexivity|]).
  exact (proj1 (proj1 (initial_password_fallback H eq_refl eq_refl) eq_refl)).
Defined.

Lemma password_file_error_propagates_witness :
  reaches_try_block missing_file [] IAGO 1 IAGO_NAME (at_try_block IAGO) /\
  password_file missing_file = Some (lit "/nonexistent") /\
  read_text (lit "/nonexistent") = inl FileNotFoundError /\
  sample_run missing_file []
    = (Raise (IOError FileNotFoundError),
       log (EvOpen (lit "/nonexistent")) (at_try_block IAGO)).
Proof.
  assert (H : reaches_try_block missing_file [] IAGO 1 IAGO_NAME
                                (at_try_block IAGO))
    by (apply plain_reaches; reflexivity).
  split; [exact H|]. repeat (split; [reflexivity|]).
  exact (proj1 (password_file_error_propagates
                  H (path := lit "/nonexistent") (err := FileNotFoundError)
                  eq_refl eq_refl)).
Defined.

Lemma integrity_error_translation_witness :
  reaches_try_block taken [] (lit "taken@example.com") 1 IAGO_NAME
                    (at_try_block (lit "taken@example.com")) /\
  do_create_user (lit "taken@example.com") (lit "hunter2") 1 IAGO_NAME None
    = Raise (IntegrityError (lit "duplicate key")) /\
  reported_error (fst (sample_run taken []))
    = Some (lit "User already exists.").
Proof.
  assert (H : reaches_try_block taken [] (lit "taken@example.com") 1
                                IAGO_NAME
                                (at_try_block (lit "taken@example.com")))
    by (apply plain_reaches; reflexivity).
  split; [exact H|]. split; [reflexivity|].
  exact (proj1 (proj2 (proj1 (integrity_error_translation H)
                             (lit "hunter2")
                             (at_try_block (lit "taken@example.com"))
                             (lit "duplicate key") eq_refl eq_refl))).
Defined.

Lemma successful_run_creates_once_witness :
  sample_run plain [] = (Return tt, snd (sample_run plain [])) /\
  creations (snd (sample_run plain [])) = 1.
Proof.
  split; [reflexivity|].
  destruct (successful_run_creates_once
              plain [] (w' := snd (sample_run plain [])) eq_refl)
    as (address & realm & name & pw & w1 & w2 & _ & _ & _ & _ & H).
  exact H.
Defined.

(** ** The further properties on the sample installation *)

Lemma strip_padding_witness :
  forallb isspace (lit "  ") = true /\
  forallb isspace (lit "  " ++ [LF]) = true /\
  trimmed (lit "secret 123") = true /\
  strip (lit "  " ++ lit "secret 123" ++ lit "  " ++ [LF]) = lit "secret 123".
Proof.
  repeat (split; [reflexivity|]).
  exact (strip_padding (lit "  ") (lit "secret 123") (lit "  " ++ [LF])
                       eq_refl eq_refl eq_refl).
Defined.

Lemma created_email_is_valid_witness :
  In (EvCreateUser IAGO (lit "initial-" ++ IAGO) 1 IAGO_NAME None)
     (trace (snd (sample_run plain []))) /\
  validate_email IAGO = true.
Proof.
  assert (H : In (EvCreateUser IAGO (lit "initial-" ++ IAGO) 1 IAGO_NAME None)
                 (trace (snd (sample_run plain []))))
    by (do 3 right; left; reflexivity).
  split; [exact H|].
  exact (created_email_is_valid plain [] _ _ _ _ _ H).
Defined.

Lemma create_user_at_most_once_and_last_witness :
  creations (snd (sample_run taken [])) = 1 /\
  exists address pw realm name,
    last_event (snd (sample_run taken []))
    = Some (EvCreateUser address pw realm name None).
Proof.
  split; [reflexivity|].
  exact (proj2 (create_user_at_most_once_and_last taken []) eq_refl).
Defined.

Lemma positionals_leave_console_alone_witness :
  contains (email (email_only true)) || contains (full_name (email_only true))
    = true /\
  stdin (snd (sample_run (email_only true) TYPED)) = TYPED /\
  occurrences is_console (snd (sample_run (email_only true) TYPED)) = 0.
Proof.
  split; [reflexivity|].
  exact (positionals_leave_console_alone (email_only true) TYPED eq_refl).
Defined.

Lemma email_prompt_end_of_input_witness :
  forallb (fun line => negb (validate_email line)) REFUSED = true /\
  fst (sample_run (interactive true) REFUSED) = Raise EOFError /\
  creations (snd (sample_run (interactive true) REFUSED)) = 0.
Proof.
  split; [reflexivity|].
  destruct (email_prompt_end_of_input (I := installation) (interactive true)
              (realm := 1) REFUSED
              eq_refl eq_refl eq_refl eq_refl eq_refl)
    as (Hrun & _ & Hc).
  split; [|exact Hc].
  exact (f_equal fst Hrun).
Defined.

Lemma full_name_prompt_end_of_input_witness :
  forallb (fun line => negb (validate_email line)) REFUSED = true /\
  validate_email IAGO = true /\
  fst (sample_run (interactive true) (REFUSED ++ [IAGO])) = Raise EOFError /\
  creations (snd (sample_run (interactive true) (REFUSED ++ [IAGO]))) = 0.
Proof.
  split; [reflexivity|]. split; [reflexivity|].
  destruct (full_name_prompt_end_of_input (I := installation)
              (interactive true) (realm := 1) REFUSED IAGO eq_refl eq_refl eq_refl eq_refl eq_refl eq_refl)
    as (Hrun & Hc).
  split; [|exact Hc].
  exact (f_equal fst Hrun).
Defined.

Lemma unresolved_realm_stops_the_run_witness :
  tos no_realm = true /\
  get_realm no_realm = Return None /\
  sample_run no_realm TYPED
  = (Raise AssertionError, log EvGetRealm (init TYPED)).
Proof.
  split; [reflexivity|]. split; [reflexivity|].
  exact (proj2 (unresolved_realm_stops_the_run no_realm TYPED eq_refl)
               eq_refl).
Defined.

Lemma one_password_source_witness :
  password_file both_passwords <> None /\
  occurrences is_open (snd (sample_run both_passwords [])) = 1 /\
  occurrences is_initial_password (snd (sample_run both_passwords [])) = 0.
Proof.
  assert (H : password_file both_passwords <> None) by discriminate.
  split; [exact H|]. split; [reflexivity|].
  exact (proj2 (proj2 (one_password_source both_passwords []))
               (or_introl H)).
Defined.


Lemma blank_password_file_witness :
  @reaches_try_block blank_installation both_passwords [] IAGO 1 IAGO_NAME
                     (@at_try_block_of blank_installation IAGO) /\
  @read_text blank_installation PW_PATH = inr BLANK_TEXT /\
  forallb isspace BLANK_TEXT = true /\
  @resolve_password blank_installation both_passwords IAGO
                    (@at_try_block_of blank_installation IAGO)
  = (Return [],
     @log blank_installation (@EvOpen blank_installation PW_PATH)
          (@at_try_block_of blank_installation IAGO)).
Proof.
  assert (H : @reaches_try_block blank_installation both_passwords [] IAGO 1
                                 IAGO_NAME
                                 (@at_try_block_of blank_installation IAGO))
    by (repeat split).
  split; [exact H|]. split; [reflexivity|]. split; [reflexivity|].
  exact (proj1 (@blank_password_file blank_installation both_passwords []
                  IAGO 1 IAGO_NAME _ PW_PATH BLANK_TEXT
                  H eq_refl eq_refl eq_refl)).
Defined.

Lemma run_succeeds_iff_witness :
  fst (sample_run plain []) = Return tt /\
  exists address realm name w pw w' u,
    reaches_try_block plain [] address realm name w /\
    resolve_password plain address w = (Return pw, w') /\
    do_create_user address pw realm name None = Return u.
Proof.
  split; [reflexivity|].
  exact (proj1 (run_succeeds_iff plain []) eq_refl).
Defined.
